(** * Verification of [sample.py]: the 6k±1 trial-division primality test

    The script defines [is_prime(n)] and a driver loop that prints a
    classification for every integer of [range(1, 20)].

    Python integers are unbounded, so they are modelled as [Z]; Python's
    [%] on integers rounds towards minus infinity and takes the sign of the
    divisor, which is exactly [Z.modulo], and it raises [ZeroDivisionError]
    on a zero divisor.  The [while] loop is modelled with fuel: one unit of
    fuel pays for one evaluation of the loop guard.  Every computation
    carries the list of events it performed (modulo operations, guard
    evaluations, printed lines), so that statements about what the code
    does on the way to its result can be written down. *)

From Stdlib Require Import ZArith List Bool String Lia Sorted.
From Stdlib Require Import DecimalString.
Import ListNotations.

Local Open Scope Z_scope.

(** ** Computations: result, exceptions, fuel and the event log *)

Module Py.

Inductive exn : Type :=
| ZeroDivisionError.

(** What a computation ends with. *)
Inductive outcome (A : Type) : Type :=
| Returns (a : A)
| Raises (e : exn)
| OutOfFuel.

Arguments Returns {A} a.
Arguments Raises {A} e.
Arguments OutOfFuel {A}.

(** What a computation does on the way. [EvPrint] is the only event that
    is visible from outside (a line on standard output); [EvMod] and
    [EvGuard] record the evaluation of [a % d] and of the loop guard
    [i * i <= n]. *)
Inductive event : Type :=
| EvMod (a d : Z)
| EvGuard (i : Z)
| EvPrint (line : string).

Definition M (A : Type) : Type := (outcome A * list event)%type.

Definition result {A} (m : M A) : outcome A := fst m.
Definition trace {A} (m : M A) : list event := snd m.

Definition ret {A} (a : A) : M A := (Returns a, []).

Definition bind {A B} (m : M A) (f : A -> M B) : M B :=
  match m with
  | (Returns a, t) => let (o, t') := f a in (o, t ++ t')
  | (Raises e, t) => (Raises e, t)
  | (OutOfFuel, t) => (OutOfFuel, t)
  end.

Definition tick (e : event) : M unit := (Returns tt, [e]).
Definition raise {A} (e : exn) : M A := (Raises e, []).
Definition out_of_fuel {A} : M A := (OutOfFuel, []).

(** [a % d] on Python integers. *)
Definition py_mod (a d : Z) : M Z :=
  bind (tick (EvMod a d))
       (fun _ => if d =? 0 then raise ZeroDivisionError else ret (a mod d)).

(** [x or y] evaluates [y] only when [x] is false. *)
Definition py_or (x y : M bool) : M bool :=
  bind x (fun b => if b then ret true else y).

(** [print(s)]. *)
Definition print (s : string) : M unit := tick (EvPrint s).

(** [range(a, b)]. *)
Definition py_range (a b : Z) : list Z :=
  map (fun k => a + Z.of_nat k) (seq 0 (Z.to_nat (b - a))).

(** [for x in xs: body(x)]. *)
Fixpoint for_each (xs : list Z) (body : Z -> M unit) : M unit :=
  match xs with
  | [] => ret tt
  | x :: xs' => bind (body x) (fun _ => for_each xs' body)
  end.

(** [f"{n}"] for an integer [n]: decimal digits, a leading [-] for
    negative numbers, no leading zeros. *)
Definition py_str (n : Z) : string := NilZero.string_of_int (Z.to_int n).

(** Projections of the event log. *)
Definition stdout (t : list event) : list string :=
  flat_map (fun e => match e with EvPrint s => [s] | _ => [] end) t.

Definition guards (t : list event) : list Z :=
  flat_map (fun e => match e with EvGuard i => [i] | _ => [] end) t.

Definition divisors (t : list event) : list Z :=
  flat_map (fun e => match e with EvMod _ d => [d] | _ => [] end) t.

End Py.

Import Py.

Declare Scope py_scope.
Delimit Scope py_scope with py.
Notation "x <- m ;; k" := (bind m (fun x => k))
  (at level 61, m at next level, right associativity) : py_scope.
Notation "m ;;; k" := (bind m (fun _ => k))
  (at level 61, right associativity) : py_scope.
Local Open Scope py_scope.

(** ** The program *)

(** The [while] loop of [is_prime], entered with the current value of [i]:
<<
    while i * i <= n:
        if n % i == 0 or n % (i + 2) == 0:
            return False
        i += 6
    return True
>> *)
Fixpoint while_loop (fuel : nat) (n i : Z) : M bool :=
  match fuel with
  | O => out_of_fuel
  | S fuel' =>
      tick (EvGuard i) ;;;
      if i * i <=? n then
        c <- py_or (r <- py_mod n i ;; ret (r =? 0))
                   (r <- py_mod n (i + 2) ;; ret (r =? 0)) ;;
        if c then ret false
        else while_loop fuel' n (i + 6)
      else ret true
  end.

(** [is_prime(n)]. *)
Definition is_prime (fuel : nat) (n : Z) : M bool :=
  if n <=? 1 then ret false
  else if n <=? 3 then ret true
  else
    c <- py_or (r <- py_mod n 2 ;; ret (r =? 0))
               (r <- py_mod n 3 ;; ret (r =? 0)) ;;
    if c then ret false
    else while_loop fuel n 5.

(** The body of the driver loop. *)
Definition driver_body (fuel : nat) (num : Z) : M unit :=
  b <- is_prime fuel num ;;
  if b then print (py_str num ++ " is prime")
  else print (py_str num ++ " is not prime").

(** The driver: [for num in range(1, 20): ...]. *)
Definition driver (fuel : nat) : M unit :=
  for_each (py_range 1 20) (driver_body fuel).

(** Fuel that is enough for [is_prime n]: the guard is evaluated at
    [i = 5, 11, 17, ...] until [i * i > n]. *)
Definition enough (n : Z) : nat := S (Z.to_nat ((Z.sqrt n + 1) / 6)).

(** ** Notions the specification speaks of *)

(** A prime number: a natural number greater than 1 with no positive
    divisors other than 1 and itself. *)
Definition prime_number (n : Z) : Prop :=
  1 < n /\ forall d, 0 < d -> (d | n) -> d = 1 \/ d = n.

(** Plain trial division, as the specification words it: every candidate
    divisor [d] with [2 <= d <= sqrt(n)] is tested, and the answer is
    [false] exactly when one of them divides [n] evenly. *)
Definition naive_trial_division (n : Z) : bool :=
  forallb (fun d => negb (n mod d =? 0)) (py_range 2 (Z.sqrt n + 1)).

(** The invariant of the [while] loop. *)
Definition loop_inv (n i : Z) : Prop :=
  i mod 6 = 5 /\ 5 <= i /\ forall d, 2 <= d < i -> ~ (d | n).

(** A list of loop counters that starts at [start] and goes up by 6. *)
Fixpoint steps_by_6 (start : Z) (l : list Z) : Prop :=
  match l with
  | [] => True
  | x :: l' => x = start /\ steps_by_6 (start + 6) l'
  end.

(** ** Arithmetic *)

Section Arithmetic.

Lemma mod_0_divide n d : d <> 0 -> (n mod d =? 0) = true <-> (d | n).
Proof.
  intros Hd. rewrite Z.eqb_eq. now apply Z.mod_divide.
Qed.

Lemma mod_n0_not_divide n d : d <> 0 -> (n mod d =? 0) = false <-> ~ (d | n).
Proof.
  intros Hd. rewrite Z.eqb_neq. now rewrite Z.mod_divide.
Qed.

Lemma divide_multiple n d k : (d * k | n) -> (d | n).
Proof.
  intros [q Hq]. exists (q * k). lia.
Qed.

Lemma loop_inv_init n : ~ (2 | n) -> ~ (3 | n) -> loop_inv n 5.
Proof.
  intros H2 H3. split; [reflexivity | split; [lia |]].
  intros d Hd Hdiv.
  assert (d = 2 \/ d = 3 \/ d = 2 * 2) as [-> | [-> | ->]] by lia; auto.
  now apply divide_multiple in Hdiv.
Qed.

Lemma loop_inv_step n i :
  loop_inv n i -> ~ (i | n) -> ~ (i + 2 | n) -> loop_inv n (i + 6).
Proof.
  intros (Hmod & Hi & Hsmall) Hni Hni2. split; [| split; [lia |]].
  - replace (i + 6) with (i + 1 * 6) by lia. now rewrite Z.mod_add.
  - intros d Hd Hdiv.
    pose proof (Z.div_mod i 6 ltac:(lia)) as Hdm. rewrite Hmod in Hdm.
    assert (Htwo : ~ (2 | n)) by (apply Hsmall; lia).
    assert (Hthree : ~ (3 | n)) by (apply Hsmall; lia).
    assert (d < i \/ d = i \/ d = i + 2 \/
            d = 2 * (3 * (i / 6) + 3) \/ d = 2 * (3 * (i / 6) + 4) \/
            d = 3 * (2 * (i / 6) + 3) \/ d = 2 * (3 * (i / 6) + 5))
      as [Hlt | [-> | [-> | [-> | [-> | [-> | ->]]]]]] by lia;
      auto.
    + apply (Hsmall d); [lia | assumption].
    + now apply divide_multiple in Hdiv.
    + now apply divide_multiple in Hdiv.
    + now apply divide_multiple in Hdiv.
    + now apply divide_multiple in Hdiv.
Qed.

Lemma loop_inv_exit n i :
  loop_inv n i -> n < i * i ->
  forall d, 2 <= d -> d * d <= n -> ~ (d | n).
Proof.
  intros (_ & Hi & Hsmall) Hexit d Hd Hdd. apply Hsmall. nia.
Qed.

Lemma small_divisor_i n i :
  5 <= i -> i * i <= n -> (i | n) ->
  exists d, 2 <= d /\ d * d <= n /\ (d | n).
Proof.
  intros Hi Hii Hdiv. exists i. repeat split; [lia | assumption | assumption].
Qed.

Lemma small_divisor_i2 n i :
  5 <= i -> i * i <= n -> (i + 2 | n) ->
  exists d, 2 <= d /\ d * d <= n /\ (d | n).
Proof.
  intros Hi Hii [q Hq].
  destruct (Z_le_gt_dec ((i + 2) * (i + 2)) n) as [Hle | Hgt].
  - exists (i + 2). repeat split; [lia | assumption | now exists q].
  - exists q. repeat split; [nia | nia | exists (i + 2); lia].
Qed.

Lemma no_small_divisor_prime n :
  1 < n -> (forall d, 2 <= d -> d * d <= n -> ~ (d | n)) -> prime_number n.
Proof.
  intros Hn Hsmall. split; [assumption |].
  intros d Hd Hdiv.
  destruct (Z.eq_dec d 1) as [-> | Hd1]; [now left | right].
  destruct (Z.eq_dec d n) as [-> | Hdn]; [reflexivity | exfalso].
  pose proof (Z.divide_pos_le d n ltac:(lia) Hdiv) as Hle.
  destruct Hdiv as [q Hq].
  destruct (Z_le_gt_dec d q) as [Hdq | Hqd].
  - apply (Hsmall d); [lia | nia | now exists q].
  - apply (Hsmall q); [nia | nia | exists d; lia].
Qed.

Lemma small_divisor_not_prime n :
  (exists d, 2 <= d /\ d * d <= n /\ (d | n)) -> ~ prime_number n.
Proof.
  intros (d & Hd & Hdd & Hdiv) [Hn Hprime].
  destruct (Hprime d ltac:(lia) Hdiv) as [-> | ->]; [lia | nia].
Qed.

Lemma prime_number_2 : prime_number 2.
Proof.
  split; [lia |]. intros d Hd Hdiv.
  pose proof (Z.divide_pos_le d 2 ltac:(lia) Hdiv). lia.
Qed.

Lemma prime_number_3 : prime_number 3.
Proof.
  split; [lia |]. intros d Hd Hdiv.
  pose proof (Z.divide_pos_le d 3 ltac:(lia) Hdiv) as Hle.
  assert (d = 1 \/ d = 2 \/ d = 3) as [-> | [-> | ->]] by lia; auto.
  destruct Hdiv as [q Hq]. lia.
Qed.

Lemma proper_divisor_not_prime n d :
  1 < d < n -> (d | n) -> ~ prime_number n.
Proof.
  intros Hd Hdiv [_ Hprime].
  destruct (Hprime d ltac:(lia) Hdiv); lia.
Qed.

End Arithmetic.

(** ** Unfolding the program *)

Section Unfolding.

(** The two tests [n % a == 0 or n % b == 0] with nonzero divisors: the
    second modulo is evaluated only when the first test fails. *)
Lemma py_or_mod n a b :
  a <> 0 -> b <> 0 ->
  py_or (r <- py_mod n a ;; ret (r =? 0)) (r <- py_mod n b ;; ret (r =? 0)) =
  if n mod a =? 0 then (Returns true, [EvMod n a])
  else (Returns (n mod b =? 0), [EvMod n a; EvMod n b]).
Proof.
  intros Ha Hb. apply Z.eqb_neq in Ha, Hb.
  unfold py_or, py_mod, bind, tick, ret, raise. rewrite Ha, Hb.
  cbn [app]. destruct (n mod a =? 0); reflexivity.
Qed.

(** One round of the loop, for a counter that is at least 5. *)
Lemma while_loop_S fuel n i :
  5 <= i ->
  while_loop (S fuel) n i =
  if i * i <=? n then
    if n mod i =? 0 then (Returns false, [EvGuard i; EvMod n i])
    else if n mod (i + 2) =? 0
         then (Returns false, [EvGuard i; EvMod n i; EvMod n (i + 2)])
         else (result (while_loop fuel n (i + 6)),
               [EvGuard i; EvMod n i; EvMod n (i + 2)]
                 ++ trace (while_loop fuel n (i + 6)))
  else (Returns true, [EvGuard i]).
Proof.
  intros Hi. cbn [while_loop]. rewrite py_or_mod by lia.
  unfold bind, tick, ret, result, trace.
  destruct (i * i <=? n); [| reflexivity].
  destruct (n mod i =? 0); [reflexivity |].
  destruct (n mod (i + 2) =? 0); [reflexivity |].
  destruct (while_loop fuel n (i + 6)); reflexivity.
Qed.

(** [is_prime] past its first two tests. *)
Lemma is_prime_gt_3 fuel n :
  3 < n ->
  is_prime fuel n =
  if n mod 2 =? 0 then (Returns false, [EvMod n 2])
  else if n mod 3 =? 0 then (Returns false, [EvMod n 2; EvMod n 3])
       else (result (while_loop fuel n 5),
             [EvMod n 2; EvMod n 3] ++ trace (while_loop fuel n 5)).
Proof.
  intros Hn. unfold is_prime.
  destruct (Z.leb_spec n 1); [lia |]. destruct (Z.leb_spec n 3); [lia |].
  rewrite py_or_mod by lia.
  unfold bind, ret, result, trace.
  destruct (n mod 2 =? 0); [reflexivity |].
  destruct (n mod 3 =? 0); [reflexivity |].
  destruct (while_loop fuel n 5); reflexivity.
Qed.

Lemma is_prime_le_1 fuel n : n <= 1 -> is_prime fuel n = (Returns false, []).
Proof.
  intros Hn. unfold is_prime. destruct (Z.leb_spec n 1); [reflexivity | lia].
Qed.

Lemma is_prime_2_3 fuel n : 1 < n <= 3 -> is_prime fuel n = (Returns true, []).
Proof.
  intros Hn. unfold is_prime.
  destruct (Z.leb_spec n 1); [lia |]. destruct (Z.leb_spec n 3); [reflexivity | lia].
Qed.

End Unfolding.

(** Splits one round of the loop into its four ways out; the hypotheses
    [Hguard], [Hi] and [Hi2] record the tests that were taken. *)
Ltac loop_round Hi5 :=
  rewrite while_loop_S by exact Hi5;
  let Hguard := fresh "Hguard" in
  let Hi := fresh "Hdiv_i" in
  let Hi2 := fresh "Hdiv_i2" in
  match goal with
  | |- context [?i * ?i <=? ?n] =>
      destruct (Z.leb_spec (i * i) n) as [Hguard | Hguard];
      [ destruct (n mod i =? 0) eqn:Hi;
        [ | destruct (n mod (i + 2) =? 0) eqn:Hi2 ] | ]
  end;
  cbn [result trace fst snd].

(** ** The loop *)

Section Loop.

(** What the loop ends with, entered under its invariant. *)
Lemma while_loop_post fuel : forall n i,
  loop_inv n i ->
  match result (while_loop fuel n i) with
  | Returns true => forall d, 2 <= d -> d * d <= n -> ~ (d | n)
  | Returns false => exists d, 2 <= d /\ d * d <= n /\ (d | n)
  | Raises _ => False
  | OutOfFuel => fuel = O \/ i + 6 * Z.of_nat fuel - 6 <= Z.sqrt n
  end.
Proof.
  induction fuel as [| fuel IH]; intros n i Hinv.
  - now left.
  - assert (Hi5 : 5 <= i) by apply Hinv.
    loop_round Hi5.
    + apply (small_divisor_i n i); try assumption.
      apply mod_0_divide; [lia | assumption].
    + apply (small_divisor_i2 n i); try assumption.
      apply mod_0_divide; [lia | assumption].
    + apply mod_n0_not_divide in Hdiv_i, Hdiv_i2; try lia.
      specialize (IH n (i + 6) (loop_inv_step n i Hinv Hdiv_i Hdiv_i2)).
      destruct (result (while_loop fuel n (i + 6))) as [[|] | |];
        try assumption.
      right. destruct IH as [-> | IH]; [| lia].
      assert (i <= Z.sqrt n) by (apply Z.sqrt_le_square; lia). lia.
    + now apply loop_inv_exit with i.
Qed.

(** What the loop does on the way: the guard is evaluated under the
    invariant only, at counters that go up by 6; every divisor is at
    least 5; nothing is printed. *)
Lemma while_loop_events fuel : forall n i,
  loop_inv n i ->
  Forall (loop_inv n) (guards (trace (while_loop fuel n i))) /\
  steps_by_6 i (guards (trace (while_loop fuel n i))) /\
  Forall (fun d => 5 <= d) (divisors (trace (while_loop fuel n i))) /\
  stdout (trace (while_loop fuel n i)) = [].
Proof.
  induction fuel as [| fuel IH]; intros n i Hinv.
  - cbn. auto.
  - assert (Hi5 : 5 <= i) by apply Hinv.
    loop_round Hi5.
    + cbn. repeat split; auto; repeat constructor; lia.
    + cbn. repeat split; auto; repeat constructor; lia.
    + apply mod_n0_not_divide in Hdiv_i, Hdiv_i2; try lia.
      destruct (IH n (i + 6) (loop_inv_step n i Hinv Hdiv_i Hdiv_i2))
        as (Hg & Hs & Hd & Ho).
      cbn. repeat split; auto; repeat constructor; try lia; assumption.
    + cbn. repeat split; auto.
Qed.

(** The guard is evaluated at most once per unit of fuel. *)
Lemma while_loop_guards_le fuel : forall n i,
  5 <= i -> (List.length (guards (trace (while_loop fuel n i))) <= fuel)%nat.
Proof.
  induction fuel as [| fuel IH]; intros n i Hi5.
  - cbn. lia.
  - loop_round Hi5; cbn; try lia.
    specialize (IH n (i + 6) ltac:(lia)). unfold guards in IH. lia.
Qed.

(** Once the loop has come to an end, more fuel changes nothing. *)
Lemma while_loop_more_fuel fuel k : forall n i,
  5 <= i ->
  result (while_loop fuel n i) <> OutOfFuel ->
  while_loop (fuel + k) n i = while_loop fuel n i.
Proof.
  induction fuel as [| fuel IH]; intros n i Hi5 Hend.
  - now contradiction Hend.
  - cbn [Nat.add]. revert Hend. rewrite (while_loop_S (fuel + k)) by exact Hi5.
    loop_round Hi5; intros Hend; rewrite ?Hdiv_i, ?Hdiv_i2;
      try (destruct (Z.leb_spec (i * i) n); [| lia]);
      try (destruct (Z.leb_spec (i * i) n); [lia |]);
      try reflexivity.
    now rewrite IH by (assumption || lia).
Qed.

End Loop.

(** ** The function *)

Section Function.

Lemma mod_2_3_cases n :
  (n mod 2 =? 0) = true /\ (2 | n) \/
  (n mod 2 =? 0) = false /\ (n mod 3 =? 0) = true /\ (3 | n) \/
  (n mod 2 =? 0) = false /\ (n mod 3 =? 0) = false /\ loop_inv n 5.
Proof.
  destruct (n mod 2 =? 0) eqn:H2.
  - left. split; [reflexivity |]. apply mod_0_divide; [lia | assumption].
  - right. destruct (n mod 3 =? 0) eqn:H3.
    + left. repeat split. apply mod_0_divide; [lia | assumption].
    + right. split; [reflexivity | split; [reflexivity |]].
      apply mod_n0_not_divide in H2, H3; try lia. now apply loop_inv_init.
Qed.

(** What [is_prime] ends with. *)
Lemma is_prime_post fuel n :
  match result (is_prime fuel n) with
  | Returns true => prime_number n
  | Returns false => ~ prime_number n
  | Raises _ => False
  | OutOfFuel => (fuel < enough n)%nat
  end.
Proof.
  destruct (Z_le_gt_dec n 1) as [Hle1 | Hgt1].
  { rewrite is_prime_le_1 by assumption. cbn. intros [Hn _]. lia. }
  destruct (Z_le_gt_dec n 3) as [Hle3 | Hgt3].
  { rewrite is_prime_2_3 by lia. cbn.
    assert (n = 2 \/ n = 3) as [-> | ->] by lia;
      [apply prime_number_2 | apply prime_number_3]. }
  rewrite is_prime_gt_3 by lia.
  destruct (mod_2_3_cases n) as [[-> H2] | [(-> & -> & H3) | (-> & -> & Hinv)]];
    cbn [result fst].
  - apply proper_divisor_not_prime with 2; [lia | assumption].
  - apply proper_divisor_not_prime with 3; [lia | assumption].
  - pose proof (while_loop_post fuel n 5 Hinv) as Hpost.
    destruct (result (while_loop fuel n 5)) as [[|] | |].
    + apply no_small_divisor_prime; [lia | assumption].
    + now apply small_divisor_not_prime.
    + assumption.
    + unfold enough. destruct Hpost as [-> | Hpost]; [lia |].
      assert (Z.of_nat fuel <= (Z.sqrt n + 1) / 6)
        by (apply Z.div_le_lower_bound; lia).
      lia.
Qed.

(** With [enough n] fuel the call returns, and returns the right answer. *)
Lemma is_prime_enough n k :
  exists b, result (is_prime (enough n + k) n) = Returns b /\
            (b = true <-> prime_number n).
Proof.
  pose proof (is_prime_post (enough n + k) n) as Hpost.
  destruct (result (is_prime (enough n + k) n)) as [[|] | |].
  - exists true. tauto.
  - exists false. split; [reflexivity |]. split; [discriminate | tauto].
  - contradiction.
  - lia.
Qed.

(** Once the call has come to an end, more fuel changes nothing. *)
Lemma is_prime_more_fuel fuel k n :
  result (is_prime fuel n) <> OutOfFuel ->
  is_prime (fuel + k) n = is_prime fuel n.
Proof.
  destruct (Z_le_gt_dec n 1) as [Hle1 | Hgt1].
  { now rewrite !is_prime_le_1 by assumption. }
  destruct (Z_le_gt_dec n 3) as [Hle3 | Hgt3].
  { now rewrite !is_prime_2_3 by lia. }
  rewrite !is_prime_gt_3 by lia.
  destruct (n mod 2 =? 0); [reflexivity |].
  destruct (n mod 3 =? 0); [reflexivity |].
  cbn [result fst]. intros Hend. now rewrite while_loop_more_fuel by (lia || assumption).
Qed.

(** What [is_prime] does on the way. *)
Lemma is_prime_events fuel n :
  Forall (loop_inv n) (guards (trace (is_prime fuel n))) /\
  steps_by_6 5 (guards (trace (is_prime fuel n))) /\
  Forall (fun d => d = 2 \/ d = 3 \/ 5 <= d)
         (divisors (trace (is_prime fuel n))) /\
  stdout (trace (is_prime fuel n)) = [] /\
  (List.length (guards (trace (is_prime fuel n))) <= fuel)%nat.
Proof.
  destruct (Z_le_gt_dec n 1) as [Hle1 | Hgt1].
  { rewrite is_prime_le_1 by assumption. cbn. repeat split; auto. lia. }
  destruct (Z_le_gt_dec n 3) as [Hle3 | Hgt3].
  { rewrite is_prime_2_3 by lia. cbn. repeat split; auto. lia. }
  rewrite is_prime_gt_3 by lia.
  destruct (mod_2_3_cases n) as [[-> H2] | [(-> & -> & H3) | (-> & -> & Hinv)]].
  - cbn. repeat split; auto. lia.
  - cbn. repeat split; auto. lia.
  - destruct (while_loop_events fuel n 5 Hinv) as (Hg & Hs & Hd & Ho).
    pose proof (while_loop_guards_le fuel n 5 ltac:(lia)) as Hlen.
    cbn. split; [exact Hg | split; [exact Hs | split; [| split; [exact Ho | exact Hlen]]]].
    constructor; [auto |]. constructor; [auto |].
    eapply Forall_impl; [| exact Hd]. cbn. intros d Hd5. auto.
Qed.

(** Membership in [range(a, b)]. *)
Lemma py_range_In a b d : In d (py_range a b) <-> a <= d < b.
Proof.
  unfold py_range. rewrite in_map_iff. split.
  - intros (k & <- & Hk). apply in_seq in Hk. lia.
  - intros Hd. exists (Z.to_nat (d - a)). split; [lia |].
    apply in_seq. lia.
Qed.

(** Plain trial division answers [true] exactly when no candidate up to
    the square root divides. *)
Lemma naive_trial_division_true n :
  naive_trial_division n = true <->
  forall d, 2 <= d -> d * d <= n -> ~ (d | n).
Proof.
  unfold naive_trial_division. rewrite forallb_forall. split.
  - intros Hall d Hd Hdd.
    assert (Hn : 0 <= n) by nia.
    assert (Hds : d <= Z.sqrt n) by (apply Z.sqrt_le_square; lia).
    specialize (Hall d ltac:(apply py_range_In; lia)).
    apply negb_true_iff in Hall. apply mod_n0_not_divide in Hall; [assumption | lia].
  - intros Hnone d Hin. apply py_range_In in Hin.
    apply negb_true_iff. apply mod_n0_not_divide; [lia |].
    assert (Hn : 0 <= n).
    { destruct (Z_le_gt_dec 0 n); [assumption |].
      rewrite Z.sqrt_neg in Hin by lia. lia. }
    apply Hnone; [lia |]. apply Z.sqrt_le_square; lia.
Qed.

Lemma naive_trial_division_false n :
  naive_trial_division n = false <->
  exists d, 2 <= d /\ d * d <= n /\ (d | n).
Proof.
  split.
  - intros Hfalse. unfold naive_trial_division in Hfalse.
    assert (Hex : existsb (fun d => n mod d =? 0)
                          (py_range 2 (Z.sqrt n + 1)) = true).
    { revert Hfalse. generalize (py_range 2 (Z.sqrt n + 1)).
      induction l as [| x l IH]; cbn; [discriminate |].
      destruct (n mod x =? 0); cbn; auto. }
    apply existsb_exists in Hex. destruct Hex as (d & Hin & Hd).
    apply py_range_In in Hin. apply mod_0_divide in Hd; [| lia].
    exists d. repeat split; try lia; [| assumption].
    assert (Hn : 0 <= n).
    { destruct (Z_le_gt_dec 0 n); [assumption |].
      rewrite Z.sqrt_neg in Hin by lia. lia. }
    apply Z.sqrt_le_square; lia.
  - intros (d & Hd & Hdd & Hdiv).
    destruct (naive_trial_division n) eqn:Hnaive; [| reflexivity].
    rewrite naive_trial_division_true in Hnaive.
    now destruct (Hnaive d Hd Hdd).
Qed.

End Function.

(** ** The properties of the specification *)

(** The values the specification lists one by one. *)
Example is_prime_0 : result (is_prime 0 0) = Returns false.
Proof. reflexivity. Qed.

Example is_prime_1 : result (is_prime 0 1) = Returns false.
Proof. reflexivity. Qed.

Example is_prime_neg_5 : result (is_prime 0 (-5)) = Returns false.
Proof. reflexivity. Qed.

Example is_prime_4 : result (is_prime 0 4) = Returns false.
Proof. reflexivity. Qed.

Example is_prime_9 : result (is_prime 0 9) = Returns false.
Proof. reflexivity. Qed.

Example is_prime_15 : result (is_prime 0 15) = Returns false.
Proof. reflexivity. Qed.

Example is_prime_18 : result (is_prime 0 18) = Returns false.
Proof. reflexivity. Qed.

Example is_prime_17 : result (is_prime (enough 17) 17) = Returns true.
Proof. reflexivity. Qed.

Example is_prime_19 : result (is_prime (enough 19) 19) = Returns true.
Proof. reflexivity. Qed.

(** C1. For every integer [n], [is_prime(n)] returns [true] if and only if
    [n] is prime, that is, a natural number greater than 1 whose only
    positive divisors are 1 and [n] itself: with [enough n] fuel or more the
    call returns a boolean [b], and [b] is [true] exactly when [n] is a
    prime number. *)
Theorem is_prime_iff_prime_number (n : Z) (k : nat) :
  exists b : bool,
    result (is_prime (enough n + k) n) = Returns b /\
    (b = true <-> prime_number n).
Proof.
  exact (is_prime_enough n k).
Qed.

(** C2. The driver goes through the integers 1 to 19 in ascending order and
    prints one line for each, ["{num} is prime"] when [is_prime(num)] is
    true and ["{num} is not prime"] otherwise; the 19 lines classify 2, 3,
    5, 7, 11, 13, 17 and 19 as prime and every other value as not prime.
    One unit of fuel per call is enough. *)
Theorem driver_prints_classification (fuel : nat) :
  py_range 1 20 =
    [1; 2; 3; 4; 5; 6; 7; 8; 9; 10; 11; 12; 13; 14; 15; 16; 17; 18; 19] /\
  result (driver (S fuel)) = Returns tt /\
  stdout (trace (driver (S fuel))) =
    [ "1 is not prime"; "2 is prime"; "3 is prime"; "4 is not prime";
      "5 is prime"; "6 is not prime"; "7 is prime"; "8 is not prime";
      "9 is not prime"; "10 is not prime"; "11 is prime";
      "12 is not prime"; "13 is prime"; "14 is not prime";
      "15 is not prime"; "16 is not prime"; "17 is prime";
      "18 is not prime"; "19 is prime" ]%string /\
  stdout (trace (driver (S fuel))) =
    map (fun num =>
           if existsb (Z.eqb num) [2; 3; 5; 7; 11; 13; 17; 19]
           then (py_str num ++ " is prime")%string
           else (py_str num ++ " is not prime")%string)
        (py_range 1 20).
Proof.
  repeat split; vm_compute; reflexivity.
Qed.

(** C3. For every integer [n <= 1] (0, 1 and every negative integer),
    [is_prime(n)] returns [False], whatever the fuel. *)
Theorem is_prime_false_up_to_1 (n : Z) (fuel : nat) :
  n <= 1 -> result (is_prime fuel n) = Returns false.
Proof.
  intros Hn. now rewrite is_prime_le_1.
Qed.

Lemma is_prime_false_up_to_1_witness :
  -5 <= 1 /\ result (is_prime 0 (-5)) = Returns false.
Proof.
  split; [lia | apply (is_prime_false_up_to_1 (-5) 0); lia].
Defined.

(** C4. [is_prime(2)] returns [True] and [is_prime(3)] returns [True]. *)
Theorem is_prime_2_and_3 (fuel : nat) :
  result (is_prime fuel 2) = Returns true /\
  result (is_prime fuel 3) = Returns true.
Proof.
  split; reflexivity.
Qed.

(** C5. For every integer [n > 3] that is divisible by 2 or by 3,
    [is_prime(n)] returns [False] before the loop runs at all: the answer
    needs no fuel, and the loop guard is never evaluated. *)
Theorem is_prime_false_on_multiples_of_2_3 (n : Z) (fuel : nat) :
  3 < n -> (2 | n) \/ (3 | n) ->
  result (is_prime fuel n) = Returns false /\
  result (is_prime 0 n) = Returns false /\
  guards (trace (is_prime fuel n)) = [].
Proof.
  intros Hn Hdiv. rewrite !is_prime_gt_3 by assumption.
  destruct (mod_2_3_cases n) as [[-> H2] | [(-> & -> & H3) | (H2 & H3 & _)]];
    [now cbn | now cbn |].
  apply mod_n0_not_divide in H2, H3; try lia. tauto.
Qed.

Lemma is_prime_false_on_multiples_of_2_3_witness :
  3 < 9 /\ ((2 | 9) \/ (3 | 9)) /\
  result (is_prime 0 9) = Returns false /\
  result (is_prime 0 9) = Returns false /\
  guards (trace (is_prime 0 9)) = [].
Proof.
  assert (H3 : (2 | 9) \/ (3 | 9)) by (right; exists 3; reflexivity).
  split; [lia | split; [exact H3 |]].
  apply (is_prime_false_on_multiples_of_2_3 9 0); [lia | exact H3].
Defined.

(** C6. For every integer [n > 3] not divisible by 2 or 3, the 6k±1 loop
    (entered with [i = 5], testing [i] and [i + 2], adding 6 to [i], going
    on while [i * i <= n]) returns the boolean that plain trial division
    over every [d] with [2 <= d <= sqrt(n)] returns, which is [false]
    exactly when one of these [d] divides [n]. *)
Theorem wheel_loop_refines_trial_division (n : Z) (k : nat) :
  3 < n -> ~ (2 | n) -> ~ (3 | n) ->
  result (while_loop (enough n + k) n 5) = Returns (naive_trial_division n) /\
  (naive_trial_division n = false <->
   exists d, 2 <= d /\ d * d <= n /\ (d | n)).
Proof.
  intros Hn H2 H3. split; [| apply naive_trial_division_false].
  pose proof (while_loop_post (enough n + k) n 5 (loop_inv_init n H2 H3))
    as Hpost.
  destruct (result (while_loop (enough n + k) n 5)) as [[|] | |].
  - apply naive_trial_division_true in Hpost. now rewrite Hpost.
  - apply naive_trial_division_false in Hpost. now rewrite Hpost.
  - contradiction.
  - exfalso. unfold enough in Hpost. destruct Hpost as [Hpost | Hpost]; [lia |].
    assert (Z.of_nat (S (Z.to_nat ((Z.sqrt n + 1) / 6)) + k)
            <= (Z.sqrt n + 1) / 6)
      by (apply Z.div_le_lower_bound; lia).
    pose proof (Z.sqrt_nonneg n).
    assert (0 <= (Z.sqrt n + 1) / 6) by (apply Z.div_pos; lia).
    lia.
Qed.

Lemma wheel_loop_refines_trial_division_witness :
  3 < 49 /\ ~ (2 | 49) /\ ~ (3 | 49) /\
  result (while_loop (enough 49 + 0) 49 5) = Returns (naive_trial_division 49) /\
  (naive_trial_division 49 = false <->
   exists d, 2 <= d /\ d * d <= 49 /\ (d | 49)).
Proof.
  assert (H2 : ~ (2 | 49)) by (intros [q Hq]; lia).
  assert (H3 : ~ (3 | 49)) by (intros [q Hq]; lia).
  split; [lia | split; [exact H2 | split; [exact H3 |]]].
  apply (wheel_loop_refines_trial_division 49 0); [lia | exact H2 | exact H3].
Defined.

(** C7. For every integer [n], the call [is_prime(n)] terminates: with
    [enough n] fuel the call comes to an end, more fuel changes neither its
    result nor what it does, and the loop guard is evaluated at
    [i = 5, 11, 17, ...], at most [enough n] times, which is about
    [sqrt(n) / 6]. *)
Theorem is_prime_terminates (n : Z) (k : nat) :
  result (is_prime (enough n + k) n) <> OutOfFuel /\
  is_prime (enough n + k) n = is_prime (enough n) n /\
  steps_by_6 5 (guards (trace (is_prime (enough n + k) n))) /\
  (List.length (guards (trace (is_prime (enough n + k) n))) <= enough n)%nat /\
  Z.of_nat (enough n) <= Z.sqrt n / 6 + 2.
Proof.
  assert (Hend : forall k', result (is_prime (enough n + k') n) <> OutOfFuel).
  { intros k'. destruct (is_prime_enough n k') as (b & -> & _). discriminate. }
  assert (Hsame : is_prime (enough n + k) n = is_prime (enough n) n).
  { apply is_prime_more_fuel. specialize (Hend O).
    now rewrite Nat.add_0_r in Hend. }
  split; [apply Hend | split; [exact Hsame |]].
  rewrite Hsame.
  destruct (is_prime_events (enough n) n) as (_ & Hsteps & _ & _ & Hlen).
  split; [exact Hsteps | split; [exact Hlen |]].
  unfold enough. pose proof (Z.sqrt_nonneg n).
  assert ((Z.sqrt n + 1) / 6 <= Z.sqrt n / 6 + 1).
  { replace (Z.sqrt n / 6 + 1) with ((Z.sqrt n + 1 * 6) / 6)
      by (rewrite Z.div_add; lia).
    apply Z.div_le_mono; lia. }
  assert (0 <= (Z.sqrt n + 1) / 6) by (apply Z.div_pos; lia).
  lia.
Qed.

(** C8. [is_prime] is total over the integers and never raises: for every
    [n] it returns a boolean once it has [enough n] fuel, no amount of fuel
    makes it raise, and every modulo operation it performs has the divisor
    2, 3 or a number that is at least 5, hence never zero. *)
Theorem is_prime_total_no_error (n : Z) (fuel : nat) :
  (exists b : bool, result (is_prime (enough n + fuel) n) = Returns b) /\
  (forall e, result (is_prime fuel n) <> Raises e) /\
  Forall (fun d => (d = 2 \/ d = 3 \/ 5 <= d) /\ d <> 0)
         (divisors (trace (is_prime fuel n))).
Proof.
  split; [| split].
  - destruct (is_prime_enough n fuel) as (b & Hb & _). now exists b.
  - intros e He. pose proof (is_prime_post fuel n) as Hpost.
    now rewrite He in Hpost.
  - destruct (is_prime_events fuel n) as (_ & _ & Hdiv & _).
    eapply Forall_impl; [| exact Hdiv]. cbn. intros d Hd. split; [exact Hd | lia].
Qed.

(** C9. [is_prime] is deterministic and has no side effect: two calls on
    the same [n] that come to an end, with whatever fuel each, end with the
    same boolean and do the same things on the way, and nothing is written
    to standard output. *)
Theorem is_prime_deterministic_pure (n : Z) (fuel1 fuel2 : nat) (b1 b2 : bool) :
  result (is_prime fuel1 n) = Returns b1 ->
  result (is_prime fuel2 n) = Returns b2 ->
  b1 = b2 /\
  is_prime fuel1 n = is_prime fuel2 n /\
  stdout (trace (is_prime fuel1 n)) = [].
Proof.
  intros H1 H2.
  assert (Hsame : is_prime fuel1 n = is_prime fuel2 n).
  { rewrite <- (is_prime_more_fuel fuel1 fuel2 n) by (rewrite H1; discriminate).
    rewrite <- (is_prime_more_fuel fuel2 fuel1 n) by (rewrite H2; discriminate).
    now rewrite Nat.add_comm. }
  split; [| split; [exact Hsame |]].
  - rewrite Hsame, H2 in H1. now injection H1.
  - apply is_prime_events.
Qed.

Lemma is_prime_deterministic_pure_witness :
  result (is_prime 2 49) = Returns false /\
  result (is_prime 7 49) = Returns false /\
  false = false /\
  is_prime 2 49 = is_prime 7 49 /\
  stdout (trace (is_prime 2 49)) = [].
Proof.
  split; [reflexivity | split; [reflexivity |]].
  apply (is_prime_deterministic_pure 49 2 7 false false); reflexivity.
Defined.

(** C10. Loop invariant of [is_prime]: for every integer [n > 3] not
    divisible by 2 or 3, whenever the loop guard [i * i <= n] is evaluated,
    [i] is congruent to 5 modulo 6 and [n] has no divisor [d] with
    [2 <= d < i]; hence, when the function returns [True], [n] has no
    divisor [d] with [2 <= d <= sqrt(n)]. *)
Theorem is_prime_loop_invariant (n : Z) (fuel : nat) :
  3 < n -> ~ (2 | n) -> ~ (3 | n) ->
  Forall (fun i => i mod 6 = 5 /\ forall d, 2 <= d < i -> ~ (d | n))
         (guards (trace (is_prime fuel n))) /\
  (result (is_prime fuel n) = Returns true ->
   forall d, 2 <= d <= Z.sqrt n -> ~ (d | n)).
Proof.
  intros Hn H2 H3. split.
  - destruct (is_prime_events fuel n) as (Hg & _).
    eapply Forall_impl; [| exact Hg]. cbn. intros i (Hmod & _ & Hsmall).
    split; assumption.
  - rewrite is_prime_gt_3 by assumption.
    destruct (mod_2_3_cases n) as [[_ H] | [(_ & _ & H) | (-> & -> & Hinv)]];
      [contradiction | contradiction |].
    cbn [result fst]. intros Htrue d Hd.
    pose proof (while_loop_post fuel n 5 Hinv) as Hpost.
    rewrite Htrue in Hpost. apply Hpost; [lia |].
    apply Z.sqrt_le_square; lia.
Qed.

Lemma is_prime_loop_invariant_witness :
  3 < 127 /\ ~ (2 | 127) /\ ~ (3 | 127) /\
  Forall (fun i => i mod 6 = 5 /\ forall d, 2 <= d < i -> ~ (d | 127))
         (guards (trace (is_prime 3 127))) /\
  (result (is_prime 3 127) = Returns true ->
   forall d, 2 <= d <= Z.sqrt 127 -> ~ (d | 127)).
Proof.
  assert (H2 : ~ (2 | 127)) by (intros [q Hq]; lia).
  assert (H3 : ~ (3 | 127)) by (intros [q Hq]; lia).
  split; [lia | split; [exact H2 | split; [exact H3 |]]].
  apply (is_prime_loop_invariant 127 3); [lia | exact H2 | exact H3].
Defined.

(** ** More on what the code does on the way *)

Section Divisors.

(** The event log of one full round of the loop, and of the two tests
    before it. *)
Lemma divisors_round n i t :
  divisors ([EvGuard i; EvMod n i; EvMod n (i + 2)] ++ t) = i :: i + 2 :: divisors t.
Proof. reflexivity. Qed.

Lemma guards_round n i t :
  guards ([EvGuard i; EvMod n i; EvMod n (i + 2)] ++ t) = i :: guards t.
Proof. reflexivity. Qed.

Lemma divisors_2_3 n t :
  divisors ([EvMod n 2; EvMod n 3] ++ t) = 2 :: 3 :: divisors t.
Proof. reflexivity. Qed.

Lemma guards_2_3 n t : guards ([EvMod n 2; EvMod n 3] ++ t) = guards t.
Proof. reflexivity. Qed.

(** Under the invariant, [i + 1] does not divide [n]: it is even. *)
Lemma loop_inv_succ n i : loop_inv n i -> ~ (i + 1 | n).
Proof.
  intros (Hmod & Hi & Hsmall) Hdiv.
  pose proof (Z.div_mod i 6 ltac:(lia)) as Hdm. rewrite Hmod in Hdm.
  replace (i + 1) with (2 * (3 * (i / 6) + 3)) in Hdiv by lia.
  apply divide_multiple in Hdiv. apply (Hsmall 2); [lia | assumption].
Qed.

(** The least divisor above 1 of a number it does not equal is at most
    the square root. *)
Lemma least_divisor_square n d :
  1 < d < n -> (d | n) -> (forall d', 2 <= d' < d -> ~ (d' | n)) ->
  d * d <= n.
Proof.
  intros Hd [q Hq] Hleast.
  destruct (Z_lt_le_dec q d) as [Hlt | Hge]; [exfalso | nia].
  apply (Hleast q); [nia | exists d; lia].
Qed.

(** A [False] out of the loop: the divisor tried last is the least divisor
    of [n] above 1. *)
Lemma while_loop_false_factor fuel : forall n i,
  loop_inv n i ->
  result (while_loop fuel n i) = Returns false ->
  exists ds d,
    divisors (trace (while_loop fuel n i)) = ds ++ [d] /\
    5 <= d < n /\ (d | n) /\ forall d', 2 <= d' < d -> ~ (d' | n).
Proof.
  induction fuel as [| fuel IH]; intros n i Hinv; [discriminate |].
  assert (Hi5 : 5 <= i) by apply Hinv.
  assert (Hsmall : forall d, 2 <= d < i -> ~ (d | n)) by apply Hinv.
  loop_round Hi5; intros Hfalse.
  - exists [], i. apply mod_0_divide in Hdiv_i; [| lia].
    split; [reflexivity | split; [nia | split; assumption]].
  - exists [i], (i + 2).
    apply mod_0_divide in Hdiv_i2; [| lia].
    apply mod_n0_not_divide in Hdiv_i; [| lia].
    split; [reflexivity | split; [nia | split; [assumption |]]].
    intros d' Hd' Hdiv'.
    assert (d' < i \/ d' = i \/ d' = i + 1) as [Hlt | [-> | ->]] by lia.
    + apply (Hsmall d'); [lia | assumption].
    + contradiction.
    + now apply (loop_inv_succ n i).
  - apply mod_n0_not_divide in Hdiv_i, Hdiv_i2; try lia.
    destruct (IH n (i + 6) (loop_inv_step n i Hinv Hdiv_i Hdiv_i2) Hfalse)
      as (ds & d & Heq & Hd & Hdiv & Hleast).
    exists (i :: i + 2 :: ds), d.
    rewrite divisors_round, Heq.
    split; [reflexivity | split; [lia | split; assumption]].
  - discriminate.
Qed.

(** The divisors the loop tries: all of the form 6k-1 or 6k+1, none above
    [sqrt(n) + 2], in strictly increasing order from [i] on; the number
    that is divided is always [n]. *)
Lemma while_loop_divisors fuel : forall n i,
  i mod 6 = 5 -> 5 <= i ->
  Forall (fun e => match e with EvMod a _ => a = n | _ => True end)
         (trace (while_loop fuel n i)) /\
  Forall (fun d => i <= d <= Z.sqrt n + 2 /\ (d mod 6 = 5 \/ d mod 6 = 1))
         (divisors (trace (while_loop fuel n i))) /\
  StronglySorted Z.lt (divisors (trace (while_loop fuel n i))).
Proof.
  induction fuel as [| fuel IH]; intros n i Hmod Hi5.
  - cbn. repeat constructor.
  - assert (Hmod2 : (i + 2) mod 6 = 1).
    { replace (i + 2) with (1 + (i / 6 + 1) * 6)
        by (pose proof (Z.div_mod i 6 ltac:(lia)); lia).
      now rewrite Z.mod_add. }
    assert (Hmod6 : (i + 6) mod 6 = 5).
    { replace (i + 6) with (i + 1 * 6) by lia. now rewrite Z.mod_add. }
    loop_round Hi5;
      try (assert (Hsqrt : i <= Z.sqrt n) by (apply Z.sqrt_le_square; lia)).
    + split; [repeat constructor |]. cbn.
      split; [| repeat constructor].
      constructor; [| constructor]. split; [lia | left; exact Hmod].
    + split; [repeat constructor |]. cbn.
      split; [| repeat constructor; lia].
      constructor; [split; [lia | left; exact Hmod] |].
      constructor; [split; [lia | right; exact Hmod2] | constructor].
    + destruct (IH n (i + 6) Hmod6 ltac:(lia)) as (Hn & Hd & Hs).
      rewrite divisors_round.
      split; [repeat constructor; assumption |].
      split.
      * constructor; [split; [lia | left; exact Hmod] |].
        constructor; [split; [lia | right; exact Hmod2] |].
        eapply Forall_impl; [| exact Hd]. cbn. intros d [Hb Hf].
        split; [lia | exact Hf].
      * constructor; [constructor; [exact Hs |] |].
        -- eapply Forall_impl; [| exact Hd]. cbn. intros d [Hb _]. lia.
        -- constructor; [lia |].
           eapply Forall_impl; [| exact Hd]. cbn. intros d [Hb _]. lia.
    + cbn. repeat constructor.
Qed.

End Divisors.

(** ** The cost of a [True] answer *)

Section Cost.

(** A [True] out of the loop entered at [i]: the guard held [g] times and
    failed once, two divisors were tried on each of the [g] rounds, and the
    last counter [i + 6 g] is the first one above [sqrt(n)]. *)
Lemma while_loop_true_count fuel : forall n i,
  5 <= i ->
  result (while_loop fuel n i) = Returns true ->
  exists g : nat,
    List.length (guards (trace (while_loop fuel n i))) = S g /\
    List.length (divisors (trace (while_loop fuel n i))) = (2 * g)%nat /\
    (S g <= fuel)%nat /\
    Z.sqrt n < i + 6 * Z.of_nat g /\
    (g = O \/ i + 6 * Z.of_nat g - 6 <= Z.sqrt n).
Proof.
  induction fuel as [| fuel IH]; intros n i Hi5; [discriminate |].
  loop_round Hi5; intros Htrue; try discriminate.
  - destruct (IH n (i + 6) ltac:(lia) Htrue) as (g & Hg & Hd & Hf & Hlast & Hprev).
    exists (S g). rewrite guards_round, divisors_round. cbn [List.length].
    rewrite Hg, Hd.
    assert (i <= Z.sqrt n) by (apply Z.sqrt_le_square; lia).
    repeat split; try lia.
  - exists O. cbn [List.length guards divisors flat_map app Nat.mul].
    split; [reflexivity | split; [reflexivity | split; [lia | split; [| now left]]]].
    destruct (Z_lt_le_dec n 0) as [Hneg | Hpos].
    + rewrite Z.sqrt_neg by assumption. lia.
    + rewrite Z.add_0_r. apply Z.sqrt_lt_square; lia.
Qed.

Lemma enough_mono x y : x <= y -> (enough x <= enough y)%nat.
Proof.
  intros Hxy. unfold enough.
  pose proof (Z.sqrt_le_mono x y Hxy) as Hs.
  pose proof (Z.sqrt_nonneg x).
  assert ((Z.sqrt x + 1) / 6 <= (Z.sqrt y + 1) / 6)
    by (apply Z.div_le_mono; lia).
  assert (0 <= (Z.sqrt x + 1) / 6) by (apply Z.div_pos; lia).
  lia.
Qed.

End Cost.

(** ** The function against plain trial division, and the driver loop *)

Section Driver.

(** [is_prime] answers what plain trial division answers, except that
    it says [False] up to 1. *)
Lemma is_prime_reference n k :
  result (is_prime (enough n + k) n) =
  Returns ((1 <? n) && naive_trial_division n).
Proof.
  destruct (is_prime_enough n k) as (b & -> & Hb). f_equal.
  destruct (Z.ltb_spec 1 n) as [Hn | Hn]; cbn [andb].
  - destruct (naive_trial_division n) eqn:Hnaive.
    + apply Hb. apply no_small_divisor_prime; [assumption |].
      now apply naive_trial_division_true.
    + destruct b; [| reflexivity]. exfalso.
      apply naive_trial_division_false in Hnaive.
      apply (small_divisor_not_prime n Hnaive). now apply Hb.
  - destruct b; [| reflexivity]. exfalso.
    destruct (proj1 Hb eq_refl) as [H1 _]. lia.
Qed.

Lemma bind_returns {A B} (m : M A) (f : A -> M B) a :
  result m = Returns a ->
  result (bind m f) = result (f a) /\
  trace (bind m f) = trace m ++ trace (f a).
Proof.
  destruct m as [o t]. cbn. intros ->. cbn. now destruct (f a).
Qed.

Lemma stdout_app t1 t2 : stdout (t1 ++ t2) = (stdout t1 ++ stdout t2)%list.
Proof. apply flat_map_app. Qed.

(** One round of the driver loop, once the call has returned. *)
Lemma driver_body_run fuel num b :
  result (is_prime fuel num) = Returns b ->
  result (driver_body fuel num) = Returns tt /\
  stdout (trace (driver_body fuel num)) =
    [if b then (py_str num ++ " is prime")%string
     else (py_str num ++ " is not prime")%string].
Proof.
  intros Hb. unfold driver_body.
  destruct (bind_returns (is_prime fuel num)
              (fun b => if b then print (py_str num ++ " is prime")
                        else print (py_str num ++ " is not prime")) b Hb)
    as [-> ->].
  destruct (is_prime_events fuel num) as (_ & _ & _ & Hout & _).
  rewrite stdout_app, Hout. now destruct b.
Qed.

(** The driver loop over any list of numbers. *)
Lemma for_each_driver_body fuel xs :
  Forall (fun x => (enough x <= fuel)%nat) xs ->
  result (for_each xs (driver_body fuel)) = Returns tt /\
  stdout (trace (for_each xs (driver_body fuel))) =
    map (fun num =>
           if (1 <? num) && naive_trial_division num
           then (py_str num ++ " is prime")%string
           else (py_str num ++ " is not prime")%string) xs.
Proof.
  induction 1 as [| x xs Hx Hxs [IHr IHo]]; [now split |].
  assert (Hb : result (is_prime fuel x) =
               Returns ((1 <? x) && naive_trial_division x)).
  { replace fuel with (enough x + (fuel - enough x))%nat by lia.
    apply is_prime_reference. }
  destruct (driver_body_run fuel x _ Hb) as [Hr Ho].
  cbn [for_each map].
  destruct (bind_returns (driver_body fuel x)
              (fun _ => for_each xs (driver_body fuel)) tt Hr) as [-> ->].
  split; [exact IHr |]. now rewrite stdout_app, Ho, IHo.
Qed.

End Driver.

(** ** Further properties of the code *)

(** X1. When [is_prime(n)] returns [False] for an [n] above 1, the divisor it
    tried last is a proper divisor of [n], it is the least divisor of [n]
    above 1, and its square is at most [n]. *)
Theorem is_prime_false_finds_least_factor (n : Z) (fuel : nat) :
  1 < n ->
  result (is_prime fuel n) = Returns false ->
  exists ds d,
    divisors (trace (is_prime fuel n)) = (ds ++ [d])%list /\
    1 < d < n /\ d * d <= n /\ (d | n) /\
    forall d', 1 < d' < d -> ~ (d' | n).
Proof.
  intros Hn.
  destruct (Z_le_gt_dec n 3) as [Hle3 | Hgt3].
  { rewrite is_prime_2_3 by lia. discriminate. }
  rewrite is_prime_gt_3 by lia.
  destruct (mod_2_3_cases n) as [[E2 H2] | [(E2 & E3 & H3) | (E2 & E3 & Hinv)]];
    rewrite E2, ?E3; cbn [result trace fst snd].
  - intros _. exists [], 2.
    split; [reflexivity | split; [lia | split; [| split; [assumption | lia]]]].
    apply least_divisor_square; [lia | assumption | lia].
  - intros _. exists [2], 3.
    apply mod_n0_not_divide in E2; [| lia].
    assert (Hleast : forall d', 2 <= d' < 3 -> ~ (d' | n)).
    { intros d' Hd'. now replace d' with 2 by lia. }
    split; [reflexivity | split; [lia | split; [| split; [assumption |]]]].
    + apply least_divisor_square; [lia | assumption | assumption].
    + intros d' Hd'. apply Hleast. lia.
  - intros Hfalse.
    destruct (while_loop_false_factor fuel n 5 Hinv Hfalse)
      as (ds & d & Heq & Hd & Hdiv & Hleast).
    exists (2 :: 3 :: ds), d. rewrite divisors_2_3, Heq.
    split; [reflexivity | split; [lia | split; [| split; [assumption |]]]].
    + apply least_divisor_square; [lia | assumption | assumption].
    + intros d' Hd'. apply Hleast. lia.
Qed.

Lemma is_prime_false_finds_least_factor_witness :
  1 < 49 /\ result (is_prime 2 49) = Returns false /\
  exists ds d,
    divisors (trace (is_prime 2 49)) = (ds ++ [d])%list /\
    1 < d < 49 /\ d * d <= 49 /\ (d | 49) /\
    forall d', 1 < d' < d -> ~ (d' | 49).
Proof.
  split; [lia | split; [reflexivity |]].
  apply (is_prime_false_finds_least_factor 49 2); [lia | reflexivity].
Defined.

(** X2. Every modulo operation of [is_prime(n)] divides [n] itself; the
    divisors it tries are 2, 3 and then numbers of the form 6k-1 or 6k+1
    between 5 and [sqrt(n) + 2], in strictly increasing order, so that no
    divisor is tried twice. *)
Theorem is_prime_tries_wheel_divisors (n : Z) (fuel : nat) :
  Forall (fun e => match e with EvMod a _ => a = n | _ => True end)
         (trace (is_prime fuel n)) /\
  Forall (fun d => d = 2 \/ d = 3 \/
                   (5 <= d <= Z.sqrt n + 2 /\ (d mod 6 = 5 \/ d mod 6 = 1)))
         (divisors (trace (is_prime fuel n))) /\
  StronglySorted Z.lt (divisors (trace (is_prime fuel n))).
Proof.
  destruct (Z_le_gt_dec n 1) as [Hle1 | Hgt1].
  { rewrite is_prime_le_1 by assumption. cbn. repeat constructor. }
  destruct (Z_le_gt_dec n 3) as [Hle3 | Hgt3].
  { rewrite is_prime_2_3 by lia. cbn. repeat constructor. }
  rewrite is_prime_gt_3 by lia.
  destruct (n mod 2 =? 0); [| destruct (n mod 3 =? 0)]; cbn [trace snd].
  - cbn. repeat constructor.
  - cbn. split; [repeat constructor |]. split.
    + constructor; [now left |]. constructor; [right; now left | constructor].
    + repeat constructor.
  - destruct (while_loop_divisors fuel n 5 eq_refl ltac:(lia)) as (Hn & Hd & Hs).
    rewrite divisors_2_3. split; [repeat constructor; assumption |]. split.
    + constructor; [now left |]. constructor; [right; now left |].
      eapply Forall_impl; [| exact Hd]. cbn. intros d Hdd. right. now right.
    + constructor; [constructor; [exact Hs |] |].
      * eapply Forall_impl; [| exact Hd]. cbn. intros d [Hb _]. lia.
      * constructor; [lia |].
        eapply Forall_impl; [| exact Hd]. cbn. intros d [Hb _]. lia.
Qed.

(** X3. When [is_prime(n)] returns [True] for an [n] above 3, the loop guard
    was evaluated exactly [enough n] times, that is [(sqrt(n) + 1) / 6 + 1]
    times, and exactly [2 * enough n] modulo operations were done: the bound
    on the number of rounds is reached on every prime above 3, and with
    less fuel the call does not return. *)
Theorem is_prime_true_cost (n : Z) (fuel : nat) :
  3 < n ->
  result (is_prime fuel n) = Returns true ->
  List.length (guards (trace (is_prime fuel n))) = enough n /\
  List.length (divisors (trace (is_prime fuel n))) = (2 * enough n)%nat /\
  (enough n <= fuel)%nat.
Proof.
  intros Hn. rewrite is_prime_gt_3 by lia.
  destruct (n mod 2 =? 0); [discriminate |].
  destruct (n mod 3 =? 0); [discriminate |].
  cbn [result trace fst snd]. intros Htrue.
  destruct (while_loop_true_count fuel n 5 ltac:(lia) Htrue)
    as (g & Hg & Hd & Hf & Hlast & Hprev).
  rewrite guards_2_3, divisors_2_3. cbn [List.length]. rewrite Hg, Hd.
  assert (Hq : (Z.sqrt n + 1) / 6 = Z.of_nat g).
  { symmetry. apply Z.div_unique with (Z.sqrt n + 1 - 6 * Z.of_nat g); [| lia].
    pose proof (Z.sqrt_nonneg n). left. lia. }
  unfold enough. rewrite Hq, Nat2Z.id. repeat split; lia.
Qed.

Lemma is_prime_true_cost_witness :
  3 < 127 /\ result (is_prime 3 127) = Returns true /\
  List.length (guards (trace (is_prime 3 127))) = enough 127 /\
  List.length (divisors (trace (is_prime 3 127))) = (2 * enough 127)%nat /\
  (enough 127 <= 3)%nat.
Proof.
  split; [lia | split; [reflexivity |]].
  apply (is_prime_true_cost 127 3); [lia | reflexivity].
Defined.

(** X4. For any integer [num], one round of the driver loop returns and
    prints exactly one line: ["{num} is prime"] when [num] is a prime
    number, ["{num} is not prime"] when it is not. *)
Theorem driver_body_prints_one_line (num : Z) (k : nat) :
  result (driver_body (enough num + k) num) = Returns tt /\
  (prime_number num /\
   stdout (trace (driver_body (enough num + k) num)) =
     [(py_str num ++ " is prime")%string]
   \/
   ~ prime_number num /\
   stdout (trace (driver_body (enough num + k) num)) =
     [(py_str num ++ " is not prime")%string]).
Proof.
  destruct (is_prime_enough num k) as (b & Hb & Hprime).
  destruct (driver_body_run _ num b Hb) as [Hr Ho].
  split; [exact Hr |]. rewrite Ho. destruct b.
  - left. split; [now apply Hprime | reflexivity].
  - right. split; [| reflexivity]. intros Hp. now apply Hprime in Hp.
Qed.

(** X5. The driver loop run over [range(a, b)] for any [a] and [b], with
    fuel enough for [b], returns and prints one line for each number of the
    range, in order: ["{num} is prime"] when [num] is above 1 and plain
    trial division finds no divisor, ["{num} is not prime"] otherwise.  The
    driver of the script is this loop for [a = 1] and [b = 20]. *)
Theorem driver_loop_over_any_range (a b : Z) (k : nat) :
  result (for_each (py_range a b) (driver_body (enough b + k))) = Returns tt /\
  stdout (trace (for_each (py_range a b) (driver_body (enough b + k)))) =
    map (fun num =>
           if (1 <? num) && naive_trial_division num
           then (py_str num ++ " is prime")%string
           else (py_str num ++ " is not prime")%string)
        (py_range a b) /\
  List.length
    (stdout (trace (for_each (py_range a b) (driver_body (enough b + k))))) =
    Z.to_nat (b - a).
Proof.
  assert (Hfuel : Forall (fun x => (enough x <= enough b + k)%nat) (py_range a b)).
  { apply Forall_forall. intros x Hx. apply py_range_In in Hx.
    pose proof (enough_mono x b ltac:(lia)). lia. }
  destruct (for_each_driver_body _ _ Hfuel) as [Hr Ho].
  split; [exact Hr | split; [exact Ho |]].
  rewrite Ho, length_map. unfold py_range. now rewrite length_map, length_seq.
Qed.

(** X6. On every integer, [is_prime(n)] returns what plain trial division
    over all [d] with [2 <= d <= sqrt(n)] returns, except up to 1, where
    trial division has nothing to try and [is_prime] says [False]. *)
Theorem is_prime_agrees_with_trial_division (n : Z) (k : nat) :
  result (is_prime (enough n + k) n) =
  Returns ((1 <? n) && naive_trial_division n).
Proof.
  exact (is_prime_reference n k).
Qed.
